(** * Branch checkout: argument construction, progress wiring and result
      classification of [app/src/lib/git/checkout.ts].

    The TypeScript module exports two asynchronous operations,
    [checkoutBranch] and [checkoutPaths], and keeps one private helper,
    [getCheckoutArgs].  Everything else it touches is imported: the process
    runner [git], [gitNetworkArguments], the progress parser, the
    authentication helpers, the feature flag and the submodule updater.

    The embedding is shallow.  An [async] function becomes a computation in
    the monad [Async], which records the calls made to the outside world
    (progress sink, subprocess, submodule updater) in order and either
    resolves with a value or rejects with an error; [await] is its bind. *)

From Stdlib Require Import String List ZArith QArith Bool Lia.
Import ListNotations.
Local Open Scope string_scope.
Local Open Scope list_scope.

(** ** Data model *)

(** [models/branch]: only [Local] and [Remote] branches exist. *)
Inductive BranchType : Type :=
| Local
| Remote.

Record Branch : Type := {
  name : string;
  type : BranchType;
  nameWithoutRemote : string
}.

(** [models/repository]: the module reads [repository.path] and nothing
    else. *)
Record Repository : Type := {
  path : string
}.

(** [models/progress]: the object literal handed to the progress callback.
    [description] is absent from the initial event, hence optional; [value]
    is a fraction of the whole operation. *)
Record ICheckoutProgress : Type := {
  kind : string;
  title : string;
  description : option string;
  value : Q;
  targetBranch : string
}.

(** What a progress parser hands to its consumer: [IGitProgress] has
    [kind = 'progress'] and carries [percent] and [details.text];
    [IGitOutput] is every other kind of output (context lines). *)
Inductive ParserOutput : Type :=
| IGitProgress (percent : Q) (details_text : string)
| IGitOutput (percent : Q) (text : string).

Definition isProgress (o : ParserOutput) : bool :=
  match o with
  | IGitProgress _ _ => true
  | IGitOutput _ _ => false
  end.

(** Environment variables of the subprocess. *)
Definition Env : Type := list (string * string).

(** One recognised authentication failure: the text looked for in the
    subprocess's stderr and the reason reported when it is found. *)
Record AuthSignature : Type := {
  pattern : string;
  reason : string
}.

(** What one run of the version-control engine produced. *)
Record ProcessRun : Type := {
  statusLines : list string;
  exitCode : Z;
  stderr : string
}.

(** The ways an operation of this module can fail. *)
Inductive GitFailure : Type :=
| AuthenticationError (matched : string)
| GitCommandError (code : Z) (raw : string)
| SubmoduleError (detail : string).

(** The value a promise of this module resolves with: [checkoutPaths]
    resolves with [undefined], [checkoutBranch] with the boolean [true]. *)
Inductive JsValue : Type :=
| undefined
| JsBool (b : bool).

(** ** Calls to the outside world and the [Async] monad *)

(** A caller-supplied progress sink.  The sink is foreign code; it is known
    to this module only as something that can be called with an event.  A
    call of the sink is taken to return: a sink that throws is not
    represented. *)
Inductive ProgressCallback : Type :=
| CallerSink.

Inductive Effect : Type :=
| Delivered (event : ICheckoutProgress)
    (* the progress callback was called with [event] *)
| Launched (args : list string) (cwd : string) (label : string)
           (environment : Env) (watched : bool)
    (* the subprocess was started; [watched] tells whether its status
       stream is read by a process callback *)
| Exited (code : Z)
    (* the subprocess ended with [code] *)
| SubmodulesInvoked (repository : Repository).
    (* the submodule updater was called *)

Definition Async (A : Type) : Type := (list Effect * (GitFailure + A))%type.

Definition trace {A : Type} (p : Async A) : list Effect := fst p.
Definition outcome {A : Type} (p : Async A) : GitFailure + A := snd p.

Definition resolve {A : Type} (a : A) : Async A := ([], inr a).
Definition reject {A : Type} (e : GitFailure) : Async A := ([], inl e).
Definition perform (e : Effect) : Async unit := ([e], inr tt).

(** [await p k]: run [p]; a rejection of [p] is rethrown and [k] never
    runs, otherwise [k] continues with the value of [p]. *)
Definition await {A B : Type} (p : Async A) (k : A -> Async B) : Async B :=
  match p with
  | (t, inl e) => (t, inl e)
  | (t, inr a) => (t ++ trace (k a), outcome (k a))
  end.

Notation "x <~ p ;; k" := (await p (fun x => k))
  (at level 61, p at next level, right associativity).
Notation "p ;;; k" := (await p (fun _ => k))
  (at level 61, right associativity).

(** Calling the sink. *)
Definition call (cb : ProgressCallback) (event : ICheckoutProgress)
  : Async unit :=
  match cb with
  | CallerSink => perform (Delivered event)
  end.

(** The events a trace delivered to the sink, in order. *)
Fixpoint delivered (t : list Effect) : list ICheckoutProgress :=
  match t with
  | [] => []
  | Delivered ev :: rest => ev :: delivered rest
  | _ :: rest => delivered rest
  end.

(** ** Options of the process runner *)

Record IGitExecutionOptions : Type := {
  env : Env;
  expectedErrors : list AuthSignature;
  trackLFSProgress : bool;
  processCallback : option (list string -> Async unit)
}.

(** ** The progress translator *)

(** State of a progress parser: the stage of the last recognised line and
    the value last emitted. *)
Record ParserState : Type := {
  stage : option string;
  lastValue : Q
}.

(** [new CheckoutProgressParser()]. *)
Definition CheckoutProgressParser : ParserState :=
  {| stage := None; lastValue := 0 |}.

(** The running clamp of a list of parsed values: a value below the last
    emitted one is replaced by it. *)
Fixpoint clampToLast (last : Q) (parsed : list Q) : list Q :=
  match parsed with
  | [] => []
  | v :: rest =>
      let emitted := if Qlt_le_dec v last then last else v in
      emitted :: clampToLast emitted rest
  end.

(** A list of values that never goes down. *)
Fixpoint nonDecreasing (vs : list Q) : Prop :=
  match vs with
  | [] => True
  | v :: rest =>
      match rest with
      | [] => True
      | w :: _ => v <= w
      end /\ nonDecreasing rest
  end.

(** [l] ends with [s]. *)
Definition endsWith {A : Type} (l s : list A) : Prop :=
  exists front, l = front ++ s.

(** Does [text] contain [pat]? *)
Definition contains (text pat : string) : bool :=
  match String.index 0 pat text with
  | Some _ => true
  | None => false
  end.

Section Checkout.

(** [models/git-account]: the account is passed on untouched. *)
Context {IGitAccount : Type}.

(** The collaborators this module imports, as far as it depends on them. *)
Record World : Type := {
  (* [./core]: transport arguments put before the command *)
  gitNetworkArguments : Repository -> option IGitAccount -> list string;
  (* [./authentication] *)
  envForAuthentication : option IGitAccount -> Env;
  AuthenticationErrors : list AuthSignature;
  (* [../feature-flag] *)
  enableRecurseSubmodulesFlag : bool;
  (* [./submodule]: how the submodule update of a repository ends *)
  submoduleOutcome : Repository -> GitFailure + unit;
  (* the version-control engine: what a run with these arguments, in this
     directory and environment, produces *)
  engine : list string -> string -> Env -> ProcessRun;
  (* [../progress]: the stage and overall fraction a status line stands
     for, when it is a progress line *)
  recognize : string -> option (string * Q)
}.

Variable W : World.

(** Modelled from the spec: [CheckoutProgressParser.parse] of [../progress]
    is not part of the sources at hand.  A line that is not recognised
    yields no progress (an output of another kind, repeating the last
    value); a recognised line yields a progress output whose value is the
    parsed one, or the last emitted value when the parsed one is lower.
    The parser remembers the stage of the line; the clamp does not look at
    it, since the emitted value must never regress within one invocation.
    The fraction [recognize] gives for a line is the overall one, with the
    share of a large-file transfer already merged in. *)
Definition parse (st : ParserState) (line : string)
  : ParserState * ParserOutput :=
  match recognize W line with
  | None => (st, IGitOutput (lastValue st) line)
  | Some (stg, v) =>
      let emitted := if Qlt_le_dec v (lastValue st) then lastValue st else v in
      ({| stage := Some stg; lastValue := emitted |},
       IGitProgress emitted line)
  end.

(** The outputs of a parser over the lines of a status stream. *)
Fixpoint parserOutputs (st : ParserState) (lines : list string)
  : list ParserOutput :=
  match lines with
  | [] => []
  | line :: rest =>
      let (st', out) := parse st line in
      out :: parserOutputs st' rest
  end.

(** Reading a status stream: every line goes through the parser and every
    parser output goes to the consumer. *)
Fixpoint feed (st : ParserState) (consumer : ParserOutput -> Async unit)
         (lines : list string) : Async unit :=
  match lines with
  | [] => resolve tt
  | line :: rest =>
      let (st', out) := parse st line in
      consumer out ;;; feed st' consumer rest
  end.

(** Modelled from the spec: [executionOptionsWithProgress] of [../progress]
    is not part of the sources at hand.  It returns the options it was
    given with a process callback added that runs the status stream of the
    subprocess through the parser and hands every parser output to
    [progressCallback]; it calls nothing itself. *)
Definition executionOptionsWithProgress
    (options : IGitExecutionOptions) (parser : ParserState)
    (progressCallback : ParserOutput -> Async unit)
  : Async IGitExecutionOptions :=
  resolve {| env := env options;
             expectedErrors := expectedErrors options;
             trackLFSProgress := trackLFSProgress options;
             processCallback := Some (feed parser progressCallback) |}.

(** The options [git] works with when the caller passes none. *)
Definition defaultOptions : IGitExecutionOptions :=
  {| env := [];
     expectedErrors := [];
     trackLFSProgress := false;
     processCallback := None |}.

(** Modelled from the spec: [git] of [./core] is not part of the sources
    at hand.  It starts the engine with the arguments, the working
    directory and the environment of the options, lets the process
    callback read the status stream, and classifies the end of the
    process: exit code 0 resolves; a failure whose stderr contains the
    text of an expected signature rejects with [AuthenticationError] and
    the reason of that signature; every other failure rejects with
    [GitCommandError], the exit code and the raw stderr. *)
Definition git (args : list string) (cwd : string) (label : string)
    (options : option IGitExecutionOptions) : Async ProcessRun :=
  let opts := match options with Some o => o | None => defaultOptions end in
  let run := engine W args cwd (env opts) in
  perform (Launched args cwd label (env opts)
             (match processCallback opts with Some _ => true | None => false end)) ;;;
  match processCallback opts with
  | Some read => read (statusLines run)
  | None => resolve tt
  end ;;;
  perform (Exited (exitCode run)) ;;;
  if (exitCode run =? 0)%Z then resolve run
  else
    match find (fun s => contains (stderr run) (pattern s)) (expectedErrors opts) with
    | Some s => reject (AuthenticationError (reason s))
    | None => reject (GitCommandError (exitCode run) (stderr run))
    end.

(** [initAndUpdateSubmodules] of [./submodule]: the call is recorded and
    ends the way the collaborator ends. *)
Definition initAndUpdateSubmodules (repository : Repository) : Async unit :=
  perform (SubmodulesInvoked repository) ;;;
  ([], submoduleOutcome W repository).

(** ** The module itself *)

Definition getCheckoutArgs (repository : Repository) (branch : Branch)
    (account : option IGitAccount)
    (progressCallback : option ProgressCallback) : Async (list string) :=
  networkArguments <~ resolve (gitNetworkArguments W repository account) ;;
  let baseArgs :=
    match progressCallback with
    | Some _ => networkArguments ++ ["checkout"; "--progress"]
    | None => networkArguments ++ ["checkout"]
    end in
  resolve
    match type branch with
    | Remote => baseArgs ++ [name branch; "-b"; nameWithoutRemote branch; "--"]
    | Local => baseArgs ++ [name branch; "--"]
    end.

Definition checkoutBranch (repository : Repository)
    (account : option IGitAccount) (branch : Branch)
    (progressCallback : option ProgressCallback) : Async JsValue :=
  let opts :=
    {| env := envForAuthentication W account;
       expectedErrors := AuthenticationErrors W;
       trackLFSProgress := false;
       processCallback := None |} in
  opts <~
    match progressCallback with
    | Some cb =>
        let title := ("Checking out branch " ++ name branch)%string in
        let kind := "checkout" in
        let targetBranch := name branch in
        opts <~
          executionOptionsWithProgress
            {| env := env opts;
               expectedErrors := expectedErrors opts;
               trackLFSProgress := true;
               processCallback := processCallback opts |}
            CheckoutProgressParser
            (fun progress =>
               match progress with
               | IGitProgress percent details_text =>
                   let description := details_text in
                   let value := percent in
                   call cb {| kind := kind;
                              title := title;
                              description := Some description;
                              value := value;
                              targetBranch := targetBranch |}
               | IGitOutput _ _ => resolve tt
               end) ;;
        (* Initial progress *)
        call cb {| kind := kind;
                   title := title;
                   description := None;
                   value := 0;
                   targetBranch := targetBranch |} ;;;
        resolve opts
    | None => resolve opts
    end ;;
  args <~ getCheckoutArgs repository branch account progressCallback ;;
  git args (path repository) "checkoutBranch" (Some opts) ;;;
  (if enableRecurseSubmodulesFlag W
   then initAndUpdateSubmodules repository
   else resolve tt) ;;;
  resolve (JsBool true).

Definition checkoutPaths (repository : Repository) (paths : list string)
  : Async JsValue :=
  git (["checkout"; "HEAD"; "--"] ++ paths) (path repository)
      "checkoutPaths" None ;;;
  resolve undefined.

End Checkout.

Arguments World : clear implicits.

(** ** Observations used to state the properties *)

(** The event a progress output of the parser is turned into. *)
Definition progressEvent (branch : Branch) (o : ParserOutput)
  : list ICheckoutProgress :=
  match o with
  | IGitProgress percent details_text =>
      [{| kind := "checkout";
          title := ("Checking out branch " ++ name branch)%string;
          description := Some details_text;
          value := percent;
          targetBranch := name branch |}]
  | IGitOutput _ _ => []
  end.

Section Observations.

Context {IGitAccount : Type}.
Variable W : World IGitAccount.

(** The argument list [getCheckoutArgs] resolves with. *)
Definition builtArgs (repository : Repository) (branch : Branch)
    (account : option IGitAccount)
    (progressCallback : option ProgressCallback) : list string :=
  match outcome (getCheckoutArgs W repository branch account progressCallback) with
  | inr args => args
  | inl _ => []
  end.

(** The run of the subprocess that [checkoutBranch] starts. *)
Definition checkoutRun (repository : Repository)
    (account : option IGitAccount) (branch : Branch)
    (progressCallback : option ProgressCallback) : ProcessRun :=
  engine W (builtArgs repository branch account progressCallback)
         (path repository) (envForAuthentication W account).

(** The run of the subprocess that [checkoutPaths] starts. *)
Definition pathsRun (repository : Repository) (paths : list string)
  : ProcessRun :=
  engine W (["checkout"; "HEAD"; "--"] ++ paths) (path repository) [].

(** The fractions of the recognised lines of a status stream, as parsed. *)
Definition parsedValues (lines : list string) : list Q :=
  flat_map (fun line => match recognize W line with
                        | Some (_, v) => [v]
                        | None => []
                        end) lines.

(** What is left of [checkoutBranch] once the subprocess has ended: the
    trace after the exit and the way the promise settles. *)
Definition afterExit (repository : Repository) (run : ProcessRun)
    (expected : list AuthSignature) : Async JsValue :=
  if (exitCode run =? 0)%Z then
    if enableRecurseSubmodulesFlag W then
      ([SubmodulesInvoked repository],
       match submoduleOutcome W repository with
       | inl e => inl e
       | inr _ => inr (JsBool true)
       end)
    else ([], inr (JsBool true))
  else
    ([],
     inl match find (fun s => contains (stderr run) (pattern s)) expected with
         | Some s => AuthenticationError (reason s)
         | None => GitCommandError (exitCode run) (stderr run)
         end).

(** What [checkoutBranch] does up to the end of the subprocess: with a
    sink, the initial event, the start of the watched subprocess and one
    event for each progress output of the parser; without, only the start
    of the subprocess. *)
Definition beforeExit (repository : Repository)
    (account : option IGitAccount) (branch : Branch)
    (progressCallback : option ProgressCallback) : list Effect :=
  let args := builtArgs repository branch account progressCallback in
  let run := checkoutRun repository account branch progressCallback in
  match progressCallback with
  | Some _ =>
      Delivered {| kind := "checkout";
                   title := ("Checking out branch " ++ name branch)%string;
                   description := None;
                   value := 0;
                   targetBranch := name branch |}
      :: Launched args (path repository) "checkoutBranch"
                  (envForAuthentication W account) true
      :: map Delivered
           (flat_map (progressEvent branch)
              (parserOutputs W CheckoutProgressParser (statusLines run)))
  | None =>
      [Launched args (path repository) "checkoutBranch"
                (envForAuthentication W account) false]
  end.

End Observations.

(** ** A sample world

    Used to run the definitions on concrete inputs: a transport argument
    pair, one environment variable per account, two authentication
    signatures, and a recogniser that knows three status lines. *)

Definition sampleRecognize (line : string) : option (string * Q) :=
  if String.eqb line "Checking out files:  25% (1/4)"
  then Some ("Checking out files", 1 # 4)
  else if String.eqb line "Checking out files:  50% (2/4)"
  then Some ("Checking out files", 1 # 2)
  else if String.eqb line "Checking out files: 100% (4/4), done."
  then Some ("Checking out files", 1)
  else None.

Definition sampleSignatures : list AuthSignature :=
  [ {| pattern := "Permission denied (publickey)";
       reason := "SSHPermissionDenied" |};
    {| pattern := "Authentication failed";
       reason := "HTTPSAuthenticationFailed" |} ].

Definition sampleWorld (flag : bool) (submodules : GitFailure + unit)
    (run : ProcessRun) : World string :=
  {| gitNetworkArguments := fun _ _ => ["-c"; "credential.helper="];
     envForAuthentication := fun account =>
       match account with
       | Some login => [("DESKTOP_USERNAME", login)]
       | None => []
       end;
     AuthenticationErrors := sampleSignatures;
     enableRecurseSubmodulesFlag := flag;
     submoduleOutcome := fun _ => submodules;
     engine := fun _ _ _ => run;
     recognize := sampleRecognize |}.

Definition sampleRepository : Repository := {| path := "/home/user/project" |}.

Definition mainBranch : Branch :=
  {| name := "main"; type := Local; nameWithoutRemote := "main" |}.

Definition featureBranch : Branch :=
  {| name := "origin/feature-x";
     type := Remote;
     nameWithoutRemote := "feature-x" |}.

(** A run with an out-of-order status line and a line that is no progress. *)
Definition goodRun : ProcessRun :=
  {| statusLines := [ "Checking out files:  50% (2/4)";
                      "Checking out files:  25% (1/4)";
                      "Note: switching to 'main'.";
                      "Checking out files: 100% (4/4), done." ];
     exitCode := 0;
     stderr := "" |}.

Definition deniedRun : ProcessRun :=
  {| statusLines := [];
     exitCode := 128;
     stderr := "git@github.com: Permission denied (publickey)." |}.

Definition brokenRun : ProcessRun :=
  {| statusLines := [];
     exitCode := 1;
     stderr := "error: pathspec 'main' did not match any file(s) known to git" |}.

(** ** Further observations of a trace *)

(** The subprocess starts of a trace, in order. *)
Definition launches (t : list Effect) : list Effect :=
  filter (fun e => match e with
                   | Launched _ _ _ _ _ => true
                   | _ => false
                   end) t.

(** The repositories the submodule updater was called with, in order. *)
Definition submoduleCalls (t : list Effect) : list Repository :=
  flat_map (fun e => match e with
                     | SubmodulesInvoked r => [r]
                     | _ => []
                     end) t.

(** The same world with another behaviour of the submodule updater. *)
Definition withSubmoduleOutcome {IGitAccount : Type} (W : World IGitAccount)
    (submodules : Repository -> GitFailure + unit) : World IGitAccount :=
  {| gitNetworkArguments := gitNetworkArguments W;
     envForAuthentication := envForAuthentication W;
     AuthenticationErrors := AuthenticationErrors W;
     enableRecurseSubmodulesFlag := enableRecurseSubmodulesFlag W;
     submoduleOutcome := submodules;
     engine := engine W;
     recognize := recognize W |}.

(** A local branch that differs from [mainBranch] only in the field the
    command of a local branch does not use. *)
Definition mainBranchOtherShortName : Branch :=
  {| name := "main"; type := Local; nameWithoutRemote := "unused" |}.

(** ** The [Async] monad *)

Lemma await_resolved {A B : Type} (p : Async A) (k : A -> Async B) (a : A) :
  outcome p = inr a ->
  await p k = (trace p ++ trace (k a), outcome (k a)).
Proof.
  destruct p as [t [e | a']]; simpl; intros H.
  - discriminate H.
  - injection H as ->. reflexivity.
Qed.

Lemma await_rejected {A B : Type} (p : Async A) (k : A -> Async B)
      (e : GitFailure) :
  outcome p = inl e -> await p k = (trace p, inl e).
Proof.
  destruct p as [t [e' | a]]; simpl; intros H.
  - injection H as ->. reflexivity.
  - discriminate H.
Qed.

Lemma delivered_app (t u : list Effect) :
  delivered (t ++ u) = delivered t ++ delivered u.
Proof.
  induction t as [| e t IH]; simpl.
  - reflexivity.
  - destruct e; simpl; rewrite IH; reflexivity.
Qed.

Lemma delivered_map_Delivered (evs : list ICheckoutProgress) :
  delivered (map Delivered evs) = evs.
Proof.
  induction evs as [| ev evs IH]; simpl; [reflexivity | now rewrite IH].
Qed.

(** ** Argument construction *)

Section ArgumentBuilder.

Context {IGitAccount : Type}.
Variable W : World IGitAccount.

Lemma getCheckoutArgs_resolves repository branch account progressCallback :
  getCheckoutArgs W repository branch account progressCallback
  = resolve (builtArgs W repository branch account progressCallback).
Proof.
  unfold builtArgs, getCheckoutArgs. reflexivity.
Qed.

Lemma builtArgs_shape repository branch account progressCallback :
  builtArgs W repository branch account progressCallback
  = gitNetworkArguments W repository account
      ++ "checkout"
      :: match progressCallback with Some _ => ["--progress"] | None => [] end
      ++ name branch
      :: match type branch with
         | Remote => ["-b"; nameWithoutRemote branch; "--"]
         | Local => ["--"]
         end.
Proof.
  unfold builtArgs, getCheckoutArgs; simpl.
  destruct progressCallback, (type branch); simpl;
    rewrite <- ?app_assoc; reflexivity.
Qed.

(** C1.  For a branch of type [Remote] the arguments built for
    [checkoutBranch] end with the branch name, [-b], the name without the
    remote and [--]; for every other branch they end with the branch name
    and [--]. *)
Theorem getCheckoutArgs_tail repository branch account progressCallback :
  exists args,
    getCheckoutArgs W repository branch account progressCallback = resolve args
    /\ endsWith args
         match type branch with
         | Remote => [name branch; "-b"; nameWithoutRemote branch; "--"]
         | Local => [name branch; "--"]
         end.
Proof.
  exists (builtArgs W repository branch account progressCallback).
  split; [apply getCheckoutArgs_resolves |].
  rewrite builtArgs_shape.
  exists (gitNetworkArguments W repository account
          ++ "checkout"
          :: match progressCallback with Some _ => ["--progress"] | None => [] end).
  destruct progressCallback, (type branch); simpl;
    rewrite <- ?app_assoc; reflexivity.
Qed.

(** C3.  The options of the built command are what stands between
    [checkout] and the arguments that name the branch.  The flag
    [--progress] is among them exactly when a progress callback was
    supplied. *)
Theorem getCheckoutArgs_progress_iff_callback
    repository branch account progressCallback :
  exists options,
    getCheckoutArgs W repository branch account progressCallback
    = resolve (gitNetworkArguments W repository account
               ++ "checkout"
               :: options
               ++ name branch
               :: match type branch with
                  | Remote => ["-b"; nameWithoutRemote branch; "--"]
                  | Local => ["--"]
                  end)
    /\ (In "--progress" options <-> progressCallback <> None).
Proof.
  exists (match progressCallback with Some _ => ["--progress"] | None => [] end).
  rewrite getCheckoutArgs_resolves, builtArgs_shape.
  split; [reflexivity |].
  destruct progressCallback as [cb |]; simpl; split.
  - intros _. discriminate.
  - intros _. left. reflexivity.
  - intros [].
  - intros H. exfalso. apply H. reflexivity.
Qed.

(** The same on the whole list: when neither the transport arguments nor
    the names of the branch that go into the command are the text
    [--progress], that text is among the built arguments exactly when a
    progress callback was supplied. *)
Theorem getCheckoutArgs_progress_flag repository branch account progressCallback :
  ~ In "--progress" (gitNetworkArguments W repository account) ->
  name branch <> "--progress" ->
  (type branch = Remote -> nameWithoutRemote branch <> "--progress") ->
  exists args,
    getCheckoutArgs W repository branch account progressCallback = resolve args
    /\ (In "--progress" args <-> progressCallback <> None).
Proof.
  intros Hnet Hname Hshort.
  exists (builtArgs W repository branch account progressCallback).
  split; [apply getCheckoutArgs_resolves |].
  rewrite builtArgs_shape.
  split.
  - intros Hin. destruct progressCallback as [cb |]; [discriminate |].
    exfalso.
    apply in_app_or in Hin. destruct Hin as [Hin | Hin]; [tauto |].
    simpl in Hin. destruct Hin as [Hin | [Hin | Hin]]; try discriminate Hin.
    + apply (Hname Hin).
    + destruct (type branch) eqn:Ht; simpl in Hin.
      * destruct Hin as [Hin | []]. discriminate Hin.
      * destruct Hin as [Hin | [Hin | [Hin | []]]]; try discriminate Hin.
        apply (Hshort eq_refl Hin).
  - intros Hcb. destruct progressCallback as [cb |]; [| congruence].
    apply in_or_app. right. simpl. right. left. reflexivity.
Qed.

End ArgumentBuilder.

(** ** The orchestrator *)

Section Orchestrator.

Context {IGitAccount : Type}.
Variable W : World IGitAccount.

(** Reading a status stream with a consumer that only delivers events
    always resolves, and delivers the events of the parser outputs in the
    order of the lines. *)
Lemma feed_delivers (consumer : ParserOutput -> Async unit)
      (events : ParserOutput -> list ICheckoutProgress) :
  (forall o, consumer o = (map Delivered (events o), inr tt)) ->
  forall lines st,
    feed W st consumer lines
    = (map Delivered (flat_map events (parserOutputs W st lines)), inr tt).
Proof.
  intros Hc. induction lines as [| line rest IH]; intros st; simpl.
  - reflexivity.
  - destruct (parse W st line) as [st' out]. simpl.
    rewrite Hc, IH. simpl. rewrite map_app. reflexivity.
Qed.

Lemma checkoutBranch_run repository account branch progressCallback :
  let run := checkoutRun W repository account branch progressCallback in
  let rest := afterExit W repository run (AuthenticationErrors W) in
  checkoutBranch W repository account branch progressCallback
  = (beforeExit W repository account branch progressCallback
     ++ Exited (exitCode run) :: trace rest,
     outcome rest).
Proof.
  intros run rest. subst rest run. unfold afterExit, beforeExit, checkoutRun.
  unfold checkoutBranch.
  rewrite getCheckoutArgs_resolves.
  destruct progressCallback as [[] |];
    unfold executionOptionsWithProgress, git, call, perform;
    cbn [await resolve trace outcome fst snd app env expectedErrors
         trackLFSProgress processCallback];
    set (run := engine W _ _ _);
    try (erewrite (feed_delivers _ (progressEvent branch))
           by (intros [p t | p t]; reflexivity));
    cbn [await resolve trace outcome fst snd app];
    (destruct (exitCode run =? 0)%Z;
     [ cbn [await resolve trace outcome fst snd app];
       destruct (enableRecurseSubmodulesFlag W);
       [ unfold initAndUpdateSubmodules, perform;
         cbn [await resolve trace outcome fst snd app];
         destruct (submoduleOutcome W repository) as [e | []]
       | ]
     | destruct (find _ _); unfold reject ]);
    cbn [await resolve trace outcome fst snd app];
    rewrite <- ?app_assoc, ?app_nil_r; reflexivity.
Qed.

Lemma checkoutPaths_run repository paths :
  let run := pathsRun W repository paths in
  checkoutPaths W repository paths
  = ([Launched (["checkout"; "HEAD"; "--"] ++ paths) (path repository)
               "checkoutPaths" [] false;
      Exited (exitCode run)],
     if (exitCode run =? 0)%Z then inr undefined
     else inl (GitCommandError (exitCode run) (stderr run))).
Proof.
  intros run. subst run. unfold pathsRun, checkoutPaths, git, perform.
  cbn [await resolve trace outcome fst snd app env expectedErrors
       trackLFSProgress processCallback defaultOptions find].
  set (run := engine W _ _ _).
  destruct (exitCode run =? 0)%Z; reflexivity.
Qed.

Lemma afterExit_submodules repository run expected :
  (exists r, In (SubmodulesInvoked r) (trace (afterExit W repository run expected)))
  <-> enableRecurseSubmodulesFlag W = true /\ exitCode run = 0%Z.
Proof.
  unfold afterExit.
  destruct (Z.eqb_spec (exitCode run) 0) as [Hz | Hnz];
    [destruct (enableRecurseSubmodulesFlag W) |]; cbn [trace fst].
  - split.
    + intros _. split; [reflexivity | exact Hz].
    + intros _. exists repository. left. reflexivity.
  - split.
    + intros [r []].
    + intros [Hflag _]. discriminate Hflag.
  - split.
    + intros [r []].
    + intros [_ Hz]. contradiction.
Qed.

Lemma beforeExit_no_submodules repository account branch progressCallback r :
  ~ In (SubmodulesInvoked r)
       (beforeExit W repository account branch progressCallback).
Proof.
  unfold beforeExit. destruct progressCallback as [cb |]; simpl.
  - intros [H | [H | H]]; try discriminate H.
    apply in_map_iff in H. destruct H as [ev [H _]]. discriminate H.
  - intros [H | []]. discriminate H.
Qed.

(** The values of the events of the parser outputs are the running clamp
    of the parsed values, started at the last value of the parser. *)
Lemma parsed_event_values branch lines :
  forall st,
    map value (flat_map (progressEvent branch) (parserOutputs W st lines))
    = clampToLast (lastValue st) (parsedValues W lines).
Proof.
  induction lines as [| line rest IH]; intros st; simpl.
  - reflexivity.
  - unfold parse. destruct (recognize W line) as [[stg v] |]; simpl.
    + rewrite IH. reflexivity.
    + apply IH.
Qed.

Lemma clampToLast_nonDecreasing parsed :
  forall last, nonDecreasing (last :: clampToLast last parsed).
Proof.
  induction parsed as [| v rest IH]; intros last.
  - simpl. tauto.
  - change (clampToLast last (v :: rest))
      with ((if Qlt_le_dec v last then last else v)
            :: clampToLast (if Qlt_le_dec v last then last else v) rest).
    split; [| apply IH].
    destruct (Qlt_le_dec v last) as [Hlt | Hle];
      [apply Qle_refl | exact Hle].
Qed.

Lemma parsed_events_count branch outs :
  length (flat_map (progressEvent branch) outs)
  = length (filter isProgress outs).
Proof.
  induction outs as [| [p t | p t] outs IH]; simpl; congruence.
Qed.

(** The events a sink receives in one run of [checkoutBranch]. *)
Lemma checkoutBranch_delivered repository account branch cb :
  delivered (trace (checkoutBranch W repository account branch (Some cb)))
  = {| kind := "checkout";
       title := ("Checking out branch " ++ name branch)%string;
       description := None;
       value := 0;
       targetBranch := name branch |}
    :: flat_map (progressEvent branch)
         (parserOutputs W CheckoutProgressParser
            (statusLines (checkoutRun W repository account branch (Some cb)))).
Proof.
  rewrite checkoutBranch_run. unfold beforeExit. cbn [trace fst app delivered].
  rewrite delivered_app, delivered_map_Delivered.
  cbn [delivered]. unfold afterExit.
  destruct (exitCode _ =? 0)%Z; [destruct (enableRecurseSubmodulesFlag W) |];
    cbn [trace fst delivered]; rewrite app_nil_r; reflexivity.
Qed.

(** C2.  When a progress callback is supplied, the first thing
    [checkoutBranch] does is to call it with the event of kind [checkout],
    value 0 and no description; the subprocess is started after that, and
    the events made from parsed progress come after the start. *)
Theorem checkoutBranch_initial_event_first repository account branch cb :
  exists rest,
    trace (checkoutBranch W repository account branch (Some cb))
    = Delivered {| kind := "checkout";
                   title := ("Checking out branch " ++ name branch)%string;
                   description := None;
                   value := 0;
                   targetBranch := name branch |}
      :: Launched (builtArgs W repository branch account (Some cb))
                  (path repository) "checkoutBranch"
                  (envForAuthentication W account) true
      :: rest
    /\ delivered rest
       = flat_map (progressEvent branch)
           (parserOutputs W CheckoutProgressParser
              (statusLines (checkoutRun W repository account branch (Some cb)))).
Proof.
  rewrite checkoutBranch_run. unfold beforeExit. cbn [trace fst app].
  eexists. split; [reflexivity |].
  rewrite delivered_app, delivered_map_Delivered.
  cbn [delivered]. unfold afterExit.
  destruct (exitCode _ =? 0)%Z; [destruct (enableRecurseSubmodulesFlag W) |];
    cbn [trace fst delivered]; apply app_nil_r.
Qed.

(** C4.  When the checkout subprocess succeeds, the submodule flag is on
    and the submodule update fails, [checkoutBranch] rejects with the
    failure of the submodule update. *)
Theorem checkoutBranch_cascade_failure
    repository account branch progressCallback failure :
  exitCode (checkoutRun W repository account branch progressCallback) = 0%Z ->
  enableRecurseSubmodulesFlag W = true ->
  submoduleOutcome W repository = inl failure ->
  outcome (checkoutBranch W repository account branch progressCallback)
  = inl failure.
Proof.
  intros Hexit Hflag Hsub.
  rewrite checkoutBranch_run. cbn [outcome snd]. unfold afterExit.
  rewrite Hexit, Hflag, Hsub. reflexivity.
Qed.

(** C5.  The submodule updater is called in a run of [checkoutBranch]
    exactly when the submodule flag is on and the checkout subprocess
    ended successfully. *)
Theorem checkoutBranch_submodules_iff
    repository account branch progressCallback :
  (exists r,
      In (SubmodulesInvoked r)
         (trace (checkoutBranch W repository account branch progressCallback)))
  <-> enableRecurseSubmodulesFlag W = true
      /\ exitCode (checkoutRun W repository account branch progressCallback) = 0%Z.
Proof.
  rewrite checkoutBranch_run. cbn [trace fst].
  rewrite <- afterExit_submodules
    with (repository := repository) (expected := AuthenticationErrors W).
  split; intros [r Hin]; exists r.
  - apply in_app_or in Hin. destruct Hin as [Hin | [Hin | Hin]].
    + exfalso. exact (beforeExit_no_submodules _ _ _ _ _ Hin).
    + discriminate Hin.
    + exact Hin.
  - apply in_or_app. right. right. exact Hin.
Qed.

(** C6.  When the checkout subprocess fails: if its stderr has the text of
    one of the declared authentication signatures, [checkoutBranch] rejects
    with [AuthenticationError] and the reason of a signature found in the
    stderr; if it has none, [checkoutBranch] rejects with [GitCommandError],
    the exit code and the raw stderr. *)
Theorem checkoutBranch_failure_classified
    repository account branch progressCallback :
  exitCode (checkoutRun W repository account branch progressCallback) <> 0%Z ->
  ((exists s,
       In s (AuthenticationErrors W)
       /\ contains
            (stderr (checkoutRun W repository account branch progressCallback))
            (pattern s) = true) ->
   exists s,
     In s (AuthenticationErrors W)
     /\ contains
          (stderr (checkoutRun W repository account branch progressCallback))
          (pattern s) = true
     /\ outcome (checkoutBranch W repository account branch progressCallback)
        = inl (AuthenticationError (reason s)))
  /\ ((forall s,
          In s (AuthenticationErrors W) ->
          contains
            (stderr (checkoutRun W repository account branch progressCallback))
            (pattern s) = false) ->
      outcome (checkoutBranch W repository account branch progressCallback)
      = inl (GitCommandError
               (exitCode (checkoutRun W repository account branch progressCallback))
               (stderr (checkoutRun W repository account branch progressCallback)))).
Proof.
  intros Hexit.
  rewrite checkoutBranch_run. cbn [outcome snd].
  set (run := checkoutRun W repository account branch progressCallback) in *.
  unfold afterExit.
  apply Z.eqb_neq in Hexit. rewrite Hexit. cbn [snd].
  destruct (find _ (AuthenticationErrors W)) as [s |] eqn:Hfind.
  - apply find_some in Hfind. destruct Hfind as [Hin Hmatch]. split.
    + intros _. exists s. auto.
    + intros Hnone. rewrite (Hnone s Hin) in Hmatch. discriminate Hmatch.
  - split.
    + intros [s [Hin Hmatch]].
      pose proof (find_none _ _ Hfind s Hin) as Hno. simpl in Hno.
      rewrite Hmatch in Hno. discriminate Hno.
    + intros _. reflexivity.
Qed.

(** C7.  The values of the events handed to the progress callback in one
    run of [checkoutBranch] never go down: they are 0 followed by the
    parsed values, each one replaced by the value emitted before it when
    it is lower. *)
Theorem checkoutBranch_values_monotone repository account branch cb :
  let values :=
    map value
      (delivered (trace (checkoutBranch W repository account branch (Some cb)))) in
  nonDecreasing values
  /\ values
     = 0 :: clampToLast 0
              (parsedValues W
                 (statusLines (checkoutRun W repository account branch (Some cb)))).
Proof.
  intros values.
  assert (Hv : values
     = 0 :: clampToLast 0
              (parsedValues W
                 (statusLines (checkoutRun W repository account branch (Some cb))))).
  { subst values. rewrite checkoutBranch_delivered.
    cbn [map value]. rewrite parsed_event_values. reflexivity. }
  split; [| exact Hv].
  rewrite Hv. apply clampToLast_nonDecreasing.
Qed.

(** C8.  [checkoutPaths] starts one subprocess, with the arguments
    [checkout], [HEAD], [--] and then the paths, in the directory of the
    repository, with no credential environment and nobody reading the
    status stream; it calls neither a progress sink nor the submodule
    updater; it resolves when the exit code is 0 and otherwise rejects
    with the plain [GitCommandError]. *)
Theorem checkoutPaths_plain repository paths :
  let run := pathsRun W repository paths in
  trace (checkoutPaths W repository paths)
  = [Launched ("checkout" :: "HEAD" :: "--" :: paths) (path repository)
              "checkoutPaths" [] false;
     Exited (exitCode run)]
  /\ outcome (checkoutPaths W repository paths)
     = if (exitCode run =? 0)%Z then inr undefined
       else inl (GitCommandError (exitCode run) (stderr run)).
Proof.
  intros run. rewrite checkoutPaths_run. split; reflexivity.
Qed.

(** C9.  When the checkout subprocess succeeds and the submodule update,
    if the flag asks for it, succeeds too, [checkoutBranch] resolves with
    [true], which is not [undefined]. *)
Theorem checkoutBranch_success_sentinel
    repository account branch progressCallback :
  exitCode (checkoutRun W repository account branch progressCallback) = 0%Z ->
  (enableRecurseSubmodulesFlag W = true ->
   submoduleOutcome W repository = inr tt) ->
  outcome (checkoutBranch W repository account branch progressCallback)
  = inr (JsBool true)
  /\ JsBool true <> undefined.
Proof.
  intros Hexit Hsub. split; [| discriminate].
  rewrite checkoutBranch_run. cbn [outcome snd]. unfold afterExit.
  rewrite Hexit. cbn [Z.eqb].
  destruct (enableRecurseSubmodulesFlag W); [| reflexivity].
  rewrite (Hsub eq_refl). reflexivity.
Qed.

(** C10.  Every event handed to the progress callback has kind [checkout],
    the title made of [Checking out branch ] and the branch name, and the
    branch name as target; there is one event for the start and one for
    each parser output of kind progress, none for the other outputs. *)
Theorem checkoutBranch_events_uniform repository account branch cb :
  let events :=
    delivered (trace (checkoutBranch W repository account branch (Some cb))) in
  Forall (fun ev =>
            kind ev = "checkout"
            /\ title ev = ("Checking out branch " ++ name branch)%string
            /\ targetBranch ev = name branch) events
  /\ length events
     = S (length
            (filter isProgress
               (parserOutputs W CheckoutProgressParser
                  (statusLines
                     (checkoutRun W repository account branch (Some cb)))))).
Proof.
  intros events. subst events. rewrite checkoutBranch_delivered. split.
  - constructor; [simpl; auto |].
    apply Forall_forall. intros ev Hin.
    apply in_flat_map in Hin. destruct Hin as [o [_ Hin]].
    destruct o as [p t | p t]; simpl in Hin; [| contradiction].
    destruct Hin as [<- | []]. simpl. auto.
  - cbn [length]. rewrite parsed_events_count. reflexivity.
Qed.

End Orchestrator.

(** ** The scenarios of the specification, run on the sample world *)

Example scenario_remote_branch_arguments :
  getCheckoutArgs (sampleWorld false (inr tt) goodRun) sampleRepository
                  featureBranch None None
  = resolve ["-c"; "credential.helper=";
             "checkout"; "origin/feature-x"; "-b"; "feature-x"; "--"].
Proof. reflexivity. Qed.

Example scenario_first_event_for_main :
  hd_error
    (delivered
       (trace (checkoutBranch (sampleWorld false (inr tt) goodRun)
                 sampleRepository None mainBranch (Some CallerSink))))
  = Some {| kind := "checkout";
            title := "Checking out branch main";
            description := None;
            value := 0;
            targetBranch := "main" |}.
Proof. reflexivity. Qed.

Example scenario_out_of_order_line_is_clamped :
  map value
    (delivered
       (trace (checkoutBranch (sampleWorld false (inr tt) goodRun)
                 sampleRepository None mainBranch (Some CallerSink))))
  = [0; 1 # 2; 1 # 2; 1].
Proof. reflexivity. Qed.

Example scenario_publickey_denied :
  outcome (checkoutBranch (sampleWorld true (inr tt) deniedRun)
             sampleRepository (Some "alice") featureBranch None)
  = inl (AuthenticationError "SSHPermissionDenied").
Proof. reflexivity. Qed.

Example scenario_other_failure :
  checkoutBranch (sampleWorld true (inr tt) brokenRun)
    sampleRepository None mainBranch None
  = ([Launched ["-c"; "credential.helper="; "checkout"; "main"; "--"]
               "/home/user/project" "checkoutBranch" [] false;
      Exited 1],
     inl (GitCommandError 1 (stderr brokenRun))).
Proof. reflexivity. Qed.

Example scenario_checkout_paths :
  checkoutPaths (sampleWorld true (inr tt) goodRun) sampleRepository
                ["a.txt"; "b/c.txt"]
  = ([Launched ["checkout"; "HEAD"; "--"; "a.txt"; "b/c.txt"]
               "/home/user/project" "checkoutPaths" [] false;
      Exited 0],
     inr undefined).
Proof. reflexivity. Qed.

(** ** The properties at concrete inputs *)

Lemma getCheckoutArgs_progress_flag_witness :
  ~ In "--progress"
       (gitNetworkArguments (sampleWorld false (inr tt) goodRun)
          sampleRepository (Some "alice"))
  /\ name featureBranch <> "--progress"
  /\ (type featureBranch = Remote ->
      nameWithoutRemote featureBranch <> "--progress")
  /\ exists args,
       getCheckoutArgs (sampleWorld false (inr tt) goodRun) sampleRepository
                       featureBranch (Some "alice") (Some CallerSink)
       = resolve args
       /\ (In "--progress" args <-> Some CallerSink <> None).
Proof.
  assert (Hnet : ~ In "--progress"
                     (gitNetworkArguments (sampleWorld false (inr tt) goodRun)
                        sampleRepository (Some "alice"))).
  { simpl. intros [H | [H | []]]; discriminate H. }
  assert (Hname : name featureBranch <> "--progress").
  { simpl. discriminate. }
  assert (Hshort : type featureBranch = Remote ->
                   nameWithoutRemote featureBranch <> "--progress").
  { simpl. intros _. discriminate. }
  split; [exact Hnet |].
  split; [exact Hname |].
  split; [exact Hshort |].
  exact (getCheckoutArgs_progress_flag
           (sampleWorld false (inr tt) goodRun) sampleRepository
           featureBranch (Some "alice") (Some CallerSink)
           Hnet Hname Hshort).
Defined.

Lemma checkoutBranch_cascade_failure_witness :
  outcome (checkoutBranch
             (sampleWorld true (inl (SubmoduleError "no url for submodule"))
                goodRun)
             sampleRepository None mainBranch (Some CallerSink))
  = inl (SubmoduleError "no url for submodule").
Proof.
  apply (checkoutBranch_cascade_failure
           (sampleWorld true (inl (SubmoduleError "no url for submodule"))
              goodRun)
           sampleRepository None mainBranch (Some CallerSink)
           (SubmoduleError "no url for submodule"));
    reflexivity.
Defined.

Lemma checkoutBranch_failure_classified_witness :
  exists s,
    In s sampleSignatures
    /\ contains (stderr deniedRun) (pattern s) = true
    /\ outcome (checkoutBranch (sampleWorld true (inr tt) deniedRun)
                  sampleRepository (Some "alice") featureBranch None)
       = inl (AuthenticationError (reason s)).
Proof.
  assert (Hexit : exitCode (checkoutRun (sampleWorld true (inr tt) deniedRun)
                              sampleRepository (Some "alice") featureBranch None)
                  <> 0%Z).
  { simpl. discriminate. }
  apply (proj1 (checkoutBranch_failure_classified
                  (sampleWorld true (inr tt) deniedRun)
                  sampleRepository (Some "alice") featureBranch None Hexit)).
  exists {| pattern := "Permission denied (publickey)";
            reason := "SSHPermissionDenied" |}.
  split; [left; reflexivity | reflexivity].
Defined.

Lemma checkoutBranch_success_sentinel_witness :
  outcome (checkoutBranch (sampleWorld true (inr tt) goodRun)
             sampleRepository None mainBranch (Some CallerSink))
  = inr (JsBool true)
  /\ JsBool true <> undefined.
Proof.
  apply (checkoutBranch_success_sentinel
           (sampleWorld true (inr tt) goodRun)
           sampleRepository None mainBranch (Some CallerSink)).
  - reflexivity.
  - intros _. reflexivity.
Defined.

(** ** Further properties of the three functions *)

Lemma submoduleCalls_map_Delivered (evs : list ICheckoutProgress) :
  submoduleCalls (map Delivered evs) = [].
Proof.
  induction evs as [| ev evs IH]; simpl; [reflexivity | exact IH].
Qed.

Section Coverage.

Context {IGitAccount : Type}.
Variable W : World IGitAccount.

Lemma afterExit_quiet repository run expected :
  delivered (trace (afterExit W repository run expected)) = []
  /\ launches (trace (afterExit W repository run expected)) = [].
Proof.
  unfold afterExit.
  destruct (exitCode run =? 0)%Z; [destruct (enableRecurseSubmodulesFlag W) |];
    split; reflexivity.
Qed.

Lemma afterExit_submoduleCalls repository run expected :
  submoduleCalls (trace (afterExit W repository run expected))
  = if enableRecurseSubmodulesFlag W && (exitCode run =? 0)%Z
    then [repository] else [].
Proof.
  unfold afterExit.
  destruct (exitCode run =? 0)%Z; destruct (enableRecurseSubmodulesFlag W);
    reflexivity.
Qed.

Lemma beforeExit_submoduleCalls repository account branch progressCallback :
  submoduleCalls (beforeExit W repository account branch progressCallback) = [].
Proof.
  unfold beforeExit. destruct progressCallback as [cb |]; simpl;
    [apply submoduleCalls_map_Delivered | reflexivity].
Qed.

(** X1.  Supplying a progress callback changes the built command in one
    place only: [--progress] is put right after [checkout]; the transport
    arguments before and the branch arguments after are the same. *)
Theorem getCheckoutArgs_callback_inserts_flag repository branch account cb :
  exists back,
    getCheckoutArgs W repository branch account None
    = resolve (gitNetworkArguments W repository account ++ "checkout" :: back)
    /\ getCheckoutArgs W repository branch account (Some cb)
       = resolve (gitNetworkArguments W repository account
                  ++ "checkout" :: "--progress" :: back).
Proof.
  exists (name branch
          :: match type branch with
             | Remote => ["-b"; nameWithoutRemote branch; "--"]
             | Local => ["--"]
             end).
  rewrite !getCheckoutArgs_resolves, !builtArgs_shape. split; reflexivity.
Qed.

(** X2.  The built command tells the branch: two branches that give the
    same command, for the same repository, account and callback, have the
    same name and the same type, and, when remote, the same name without
    the remote. *)
Theorem getCheckoutArgs_determines_branch
    repository account progressCallback branch1 branch2 :
  getCheckoutArgs W repository branch1 account progressCallback
  = getCheckoutArgs W repository branch2 account progressCallback ->
  name branch1 = name branch2
  /\ type branch1 = type branch2
  /\ (type branch1 = Remote ->
      nameWithoutRemote branch1 = nameWithoutRemote branch2).
Proof.
  rewrite !getCheckoutArgs_resolves, !builtArgs_shape.
  intros Heq. injection Heq as Heq.
  apply app_inv_head in Heq. injection Heq as Heq.
  apply app_inv_head in Heq. injection Heq as Hname Htail.
  destruct (type branch1), (type branch2); try discriminate Htail.
  - repeat split; [exact Hname | intros H; discriminate H].
  - injection Htail as Hshort.
    repeat split; [exact Hname | intros _; exact Hshort].
Qed.

(** X3.  When neither the transport arguments nor the branch name are the
    text [-b], the built command has [-b] exactly for a remote branch: a
    local branch is checked out without creating a branch. *)
Theorem getCheckoutArgs_new_branch_flag
    repository branch account progressCallback :
  ~ In "-b" (gitNetworkArguments W repository account) ->
  name branch <> "-b" ->
  exists args,
    getCheckoutArgs W repository branch account progressCallback = resolve args
    /\ (In "-b" args <-> type branch = Remote).
Proof.
  intros Hnet Hname.
  exists (builtArgs W repository branch account progressCallback).
  split; [apply getCheckoutArgs_resolves |].
  rewrite builtArgs_shape. split.
  - intros Hin. destruct (type branch); [exfalso | reflexivity].
    apply in_app_or in Hin. destruct Hin as [Hin | Hin]; [tauto |].
    destruct progressCallback; simpl in Hin;
      repeat (destruct Hin as [Hin | Hin]; try discriminate Hin; auto).
  - intros ->. apply in_or_app. right.
    destruct progressCallback; simpl; tauto.
Qed.

(** X4.  Without a progress callback [checkoutBranch] delivers no event at
    all, whatever the subprocess writes and however it ends. *)
Theorem checkoutBranch_silent_without_callback repository account branch :
  delivered (trace (checkoutBranch W repository account branch None)) = [].
Proof.
  rewrite checkoutBranch_run. cbn [trace fst beforeExit app delivered].
  apply afterExit_quiet.
Qed.

(** X5.  Without a progress callback [checkoutBranch] calls [git] once
    and no more: with the built arguments, in the directory of the
    repository, under the label [checkoutBranch], with the environment made
    from the account and no process callback. *)
Theorem checkoutBranch_single_git_call_without_callback
    repository account branch :
  launches (trace (checkoutBranch W repository account branch None))
  = [Launched (builtArgs W repository branch account None)
              (path repository) "checkoutBranch"
              (envForAuthentication W account) false].
Proof.
  rewrite checkoutBranch_run. cbn [trace fst beforeExit app].
  unfold launches. cbn [filter].
  fold (launches (trace (afterExit W repository
                           (checkoutRun W repository account branch None)
                           (AuthenticationErrors W)))).
  rewrite (proj2 (afterExit_quiet _ _ _)). reflexivity.
Qed.

(** X6.  [checkoutBranch] resolves with [true] exactly when the checkout
    subprocess exits with 0 and the submodule update, when the flag asks
    for it, succeeds; it never resolves with another value. *)
Theorem checkoutBranch_resolves_iff
    repository account branch progressCallback :
  (outcome (checkoutBranch W repository account branch progressCallback)
   = inr (JsBool true)
   <-> exitCode (checkoutRun W repository account branch progressCallback) = 0%Z
       /\ (enableRecurseSubmodulesFlag W = true ->
           submoduleOutcome W repository = inr tt))
  /\ forall v,
       outcome (checkoutBranch W repository account branch progressCallback)
       = inr v ->
       v = JsBool true.
Proof.
  rewrite checkoutBranch_run. cbn [outcome snd]. unfold afterExit.
  destruct (Z.eqb_spec
              (exitCode (checkoutRun W repository account branch progressCallback))
              0) as [Hz | Hnz];
    [destruct (enableRecurseSubmodulesFlag W);
     [destruct (submoduleOutcome W repository) as [e | []] |] |];
    cbn [snd]; (split; [split |]).
  - intros H. discriminate H.
  - intros [_ H]. discriminate (H eq_refl).
  - intros v H. discriminate H.
  - intros _. split; [exact Hz | reflexivity].
  - reflexivity.
  - intros v H. injection H as <-. reflexivity.
  - intros _. split; [exact Hz | intros H; discriminate H].
  - reflexivity.
  - intros v H. injection H as <-. reflexivity.
  - intros H. discriminate H.
  - intros [H _]. contradiction.
  - intros v H. discriminate H.
Qed.

(** X7.  In one run of [checkoutBranch] the submodule updater is called
    at most once, and only for the repository of the call: once when the
    flag is on and the subprocess exited with 0, never otherwise. *)
Theorem checkoutBranch_submodule_calls
    repository account branch progressCallback :
  submoduleCalls
    (trace (checkoutBranch W repository account branch progressCallback))
  = if enableRecurseSubmodulesFlag W
       && (exitCode (checkoutRun W repository account branch progressCallback)
           =? 0)%Z
    then [repository] else [].
Proof.
  rewrite checkoutBranch_run. cbn [trace fst]. unfold submoduleCalls.
  rewrite flat_map_app. cbn [flat_map app].
  fold (submoduleCalls
          (beforeExit W repository account branch progressCallback)).
  fold (submoduleCalls
          (trace (afterExit W repository
                    (checkoutRun W repository account branch progressCallback)
                    (AuthenticationErrors W)))).
  rewrite beforeExit_submoduleCalls, afterExit_submoduleCalls. reflexivity.
Qed.

(** X8.  When the flag is on and the checkout subprocess exits with 0, the
    call of the submodule updater is the last thing [checkoutBranch] does,
    right after the end of the subprocess. *)
Theorem checkoutBranch_submodules_last
    repository account branch progressCallback :
  enableRecurseSubmodulesFlag W = true ->
  exitCode (checkoutRun W repository account branch progressCallback) = 0%Z ->
  exists front,
    trace (checkoutBranch W repository account branch progressCallback)
    = front ++ [Exited 0; SubmodulesInvoked repository]
    /\ submoduleCalls front = [].
Proof.
  intros Hflag Hexit.
  exists (beforeExit W repository account branch progressCallback).
  split; [| apply beforeExit_submoduleCalls].
  rewrite checkoutBranch_run. cbn [trace fst]. unfold afterExit.
  rewrite Hexit, Hflag. reflexivity.
Qed.

(** X9.  Of the events handed to the progress callback only the first has
    no description: every event after it carries one. *)
Theorem checkoutBranch_descriptions repository account branch cb :
  exists texts,
    map description
      (delivered (trace (checkoutBranch W repository account branch (Some cb))))
    = None :: map Some texts.
Proof.
  rewrite checkoutBranch_delivered. cbn [map description].
  generalize (parserOutputs W CheckoutProgressParser
                (statusLines
                   (checkoutRun W repository account branch (Some cb)))).
  intros outs. induction outs as [| [p t | p t] outs [texts IH]].
  - exists []. reflexivity.
  - exists (t :: texts). injection IH as IH.
    cbn [flat_map progressEvent app map description]. rewrite IH. reflexivity.
  - exists texts. exact IH.
Qed.

(** X10.  Everything [checkoutBranch] delivers to the progress callback is
    delivered before the end of the subprocess: after it no event is
    delivered and no subprocess is started, and before it the submodule
    updater is not called. *)
Theorem checkoutBranch_nothing_delivered_after_exit
    repository account branch progressCallback :
  exists front back,
    trace (checkoutBranch W repository account branch progressCallback)
    = front
      ++ Exited (exitCode (checkoutRun W repository account branch progressCallback))
      :: back
    /\ delivered back = []
    /\ launches back = []
    /\ submoduleCalls front = [].
Proof.
  exists (beforeExit W repository account branch progressCallback).
  exists (trace (afterExit W repository
                   (checkoutRun W repository account branch progressCallback)
                   (AuthenticationErrors W))).
  rewrite checkoutBranch_run. cbn [trace fst].
  split; [reflexivity |].
  split; [apply afterExit_quiet |].
  split; [apply afterExit_quiet | apply beforeExit_submoduleCalls].
Qed.

(** X11.  When the flag is off, the submodule updater has no part in
    [checkoutBranch]: whatever it would answer, the calls made and the
    result are the same. *)
Theorem checkoutBranch_flag_off_ignores_submodules
    repository account branch progressCallback submodules :
  enableRecurseSubmodulesFlag W = false ->
  checkoutBranch (withSubmoduleOutcome W submodules)
                 repository account branch progressCallback
  = checkoutBranch W repository account branch progressCallback.
Proof.
  intros Hflag. rewrite !checkoutBranch_run.
  unfold afterExit. cbn [enableRecurseSubmodulesFlag withSubmoduleOutcome].
  rewrite Hflag. reflexivity.
Qed.

End Coverage.

(** X12.  [checkoutPaths] depends on the world through the subprocess
    alone: in two worlds where the subprocess runs alike, it makes the same
    calls and ends the same way, whatever the flag, the submodule updater,
    the credentials and the authentication signatures of the two are. *)
Theorem checkoutPaths_subprocess_only {IGitAccount : Type}
    (W1 W2 : World IGitAccount) repository paths :
  pathsRun W1 repository paths = pathsRun W2 repository paths ->
  checkoutPaths W1 repository paths = checkoutPaths W2 repository paths.
Proof.
  intros Hrun. rewrite !checkoutPaths_run. cbv zeta. rewrite Hrun.
  reflexivity.
Qed.

Lemma getCheckoutArgs_determines_branch_witness :
  getCheckoutArgs (sampleWorld false (inr tt) goodRun) sampleRepository
                  mainBranch None (Some CallerSink)
  = getCheckoutArgs (sampleWorld false (inr tt) goodRun) sampleRepository
                    mainBranchOtherShortName None (Some CallerSink)
  /\ name mainBranch = name mainBranchOtherShortName
  /\ type mainBranch = type mainBranchOtherShortName
  /\ (type mainBranch = Remote ->
      nameWithoutRemote mainBranch = nameWithoutRemote mainBranchOtherShortName).
Proof.
  assert (Hsame :
            getCheckoutArgs (sampleWorld false (inr tt) goodRun) sampleRepository
                            mainBranch None (Some CallerSink)
            = getCheckoutArgs (sampleWorld false (inr tt) goodRun)
                              sampleRepository
                              mainBranchOtherShortName None (Some CallerSink)).
  { reflexivity. }
  split; [exact Hsame |].
  exact (getCheckoutArgs_determines_branch
           (sampleWorld false (inr tt) goodRun) sampleRepository None
           (Some CallerSink) mainBranch mainBranchOtherShortName Hsame).
Defined.

Lemma getCheckoutArgs_new_branch_flag_witness :
  exists args,
    getCheckoutArgs (sampleWorld false (inr tt) goodRun) sampleRepository
                    featureBranch None None
    = resolve args
    /\ (In "-b" args <-> type featureBranch = Remote).
Proof.
  apply (getCheckoutArgs_new_branch_flag
           (sampleWorld false (inr tt) goodRun) sampleRepository
           featureBranch None None).
  - simpl. intros [H | [H | []]]; discriminate H.
  - simpl. discriminate.
Defined.

Lemma checkoutBranch_submodules_last_witness :
  exists front,
    trace (checkoutBranch (sampleWorld true (inr tt) goodRun)
             sampleRepository None mainBranch None)
    = front ++ [Exited 0; SubmodulesInvoked sampleRepository]
    /\ submoduleCalls front = [].
Proof.
  apply (checkoutBranch_submodules_last
           (sampleWorld true (inr tt) goodRun)
           sampleRepository None mainBranch None);
    reflexivity.
Defined.

Lemma checkoutBranch_flag_off_ignores_submodules_witness :
  checkoutBranch
    (withSubmoduleOutcome (sampleWorld false (inr tt) goodRun)
       (fun _ => inl (SubmoduleError "no url for submodule")))
    sampleRepository None mainBranch (Some CallerSink)
  = checkoutBranch (sampleWorld false (inr tt) goodRun)
      sampleRepository None mainBranch (Some CallerSink).
Proof.
  apply (checkoutBranch_flag_off_ignores_submodules
           (sampleWorld false (inr tt) goodRun)
           sampleRepository None mainBranch (Some CallerSink)
           (fun _ => inl (SubmoduleError "no url for submodule"))).
  reflexivity.
Defined.

Lemma checkoutPaths_subprocess_only_witness :
  checkoutPaths
    (sampleWorld true (inl (SubmoduleError "no url for submodule")) deniedRun)
    sampleRepository ["a.txt"]
  = checkoutPaths (sampleWorld false (inr tt) deniedRun)
      sampleRepository ["a.txt"].
Proof.
  apply (checkoutPaths_subprocess_only
           (sampleWorld true (inl (SubmoduleError "no url for submodule"))
              deniedRun)
           (sampleWorld false (inr tt) deniedRun)
           sampleRepository ["a.txt"]).
  reflexivity.
Defined.
